(** * The VLM-embeddings notebook: image encoder, embedding consumption and
      similarity scorer

    Shallow embedding of [examples/vlm_embeddings_examples.ipynb].  The
    notebook defines two functions, [image_to_base64] and
    [cosine_similarity], and a top-level flow that calls the embeddings
    endpoint twice and keeps [.data[0].embedding] of each response.

    Numbers.  Embeddings are lists of Python floats, and [np.dot] computes
    in binary64.  [Float64.cosine_similarity] is the scorer as it runs, on
    the IEEE 754 specification of binary64 arithmetic: rounding, overflow to
    infinity, underflow and NaN are all there.  [cosine_similarity] is the
    same function read over the real numbers.  It is used where a property
    is stated of exact arithmetic, and where no arithmetic is involved: the
    shape check, the exceptions and the flow of the notebook. *)

From Stdlib Require Import Strings.String Strings.Ascii Strings.Byte.
From Stdlib Require Import List ZArith Reals Lra Lia Bool.
From Stdlib Require Import Floats.SpecFloat QArith Qreals.
Close Scope Q_scope.
Import ListNotations.

(* ================================================================== *)
(** * Definitions *)
(* ================================================================== *)

(** ** Python results

    A Python call either returns a value or raises.  The exceptions are the
    ones the library calls of the notebook can raise. *)

Inductive exn : Type :=
| ValueError_shapes_not_aligned (n m : nat)
    (* numpy: "shapes (n,) and (m,) not aligned: n (dim 0) != m (dim 0)" *)
| IndexError_list_index_out_of_range
| OSError_cannot_write_as_PNG
| UnicodeDecodeError
| APIError (status : Z).

Inductive result (A : Type) : Type :=
| Ok (a : A)
| Raise (e : exn).

Arguments Ok {A} a.
Arguments Raise {A} e.

Definition bind {A B : Type} (m : result A) (k : A -> result B) : result B :=
  match m with
  | Ok a => k a
  | Raise e => Raise e
  end.

Declare Scope py_scope.
Delimit Scope py_scope with py.
Notation "x <- m ;; k" := (bind m (fun x => k))
  (at level 61, m at next level, right associativity) : py_scope.
Open Scope py_scope.

(** [l[i]] on a Python list: negative indices count from the end, an index
    out of range raises [IndexError]. *)
Definition list_getitem {A : Type} (l : list A) (i : Z) : result A :=
  let n := Z.of_nat (length l) in
  let j := if (i <? 0)%Z then (i + n)%Z else i in
  if ((0 <=? j) && (j <? n))%Z
  then match nth_error l (Z.to_nat j) with
       | Some x => Ok x
       | None => Raise IndexError_list_index_out_of_range
       end
  else Raise IndexError_list_index_out_of_range.

(** ** numpy, as far as the scorer uses it

    [np.array] of a list of floats is a one-dimensional array whose shape is
    [(len,)].  [np.dot] of two one-dimensional arrays is their inner product;
    it does not broadcast, and raises [ValueError] when the two lengths
    differ.

    This module is the reading over exact arithmetic: the elements are real
    numbers and [ddot] adds and multiplies them exactly.  The shape check is
    the one of the code.  [Float64] below has the same functions on binary64
    numbers. *)

Module np.

Record ndarray : Type := mk_ndarray { shape0 : nat; data : list R }.

Definition array (l : list R) : ndarray :=
  {| shape0 := length l; data := l |}.

(** The accumulation loop of the inner product: [acc += x[i] * y[i]]. *)
Definition ddot_step (acc : R) (p : R * R) : R := (acc + fst p * snd p)%R.

Definition ddot (x y : list R) : R :=
  fold_left ddot_step (combine x y) 0%R.

Definition dot (a b : ndarray) : result R :=
  if Nat.eqb (shape0 a) (shape0 b)
  then Ok (ddot (data a) (data b))
  else Raise (ValueError_shapes_not_aligned (shape0 a) (shape0 b)).

(** [c * a] for a scalar [c] and an array [a]. *)
Definition scale (c : R) (a : list R) : list R := map (Rmult c) a.

End np.

(** ** The scorer (notebook cell 13), over exact arithmetic
<<
def cosine_similarity(a, b):
    a = np.array(a)
    b = np.array(b)
    return np.dot(a, b)
>> *)
Definition cosine_similarity (a b : list R) : result R :=
  let a := np.array a in
  let b := np.array b in
  np.dot a b.

(** ** What the specification says of the scorer *)

(** The sum of [f i] over the indices [0 <= i < n]. *)
Fixpoint index_sum (f : nat -> R) (n : nat) : R :=
  match n with
  | O => 0%R
  | S k => (index_sum f k + f k)%R
  end.

(** "the sum over indices i of vectorA[i] * vectorB[i]" *)
Definition dot_product_spec (n : nat) (a b : list R) : R :=
  index_sum (fun i => (nth i a 0 * nth i b 0)%R) n.

(** Sum of the squared components, and the L2 norm. *)
Fixpoint sum_sq (v : list R) : R :=
  match v with
  | [] => 0%R
  | x :: v' => (x * x + sum_sq v')%R
  end.

Definition l2_norm (v : list R) : R := sqrt (sum_sq v).

Definition unit_norm (v : list R) : Prop := l2_norm v = 1%R.

(** ** Bytes

    A [bytes] object is a [list byte].  [byte_val] is the value of a byte as
    the C code reads it ([unsigned char]). *)

Definition byte_val (b : byte) : Z := Z.of_N (Byte.to_N b).

Definition byte_of_Z (z : Z) : byte :=
  match Byte.of_N (Z.to_N (z mod 256)) with
  | Some b => b
  | None => x00
  end.

(** ** [base64.b64encode], through [binascii.b2a_base64]

    [base64.b64encode(s)] is [binascii.b2a_base64(s, newline=False)].  The
    encoder of CPython 3.11 (the kernel of the notebook) shifts each input
    byte into [leftchar], an [unsigned int], and emits a character for every
    six bits that are ready:
<<
    for( ; bin_len > 0 ; bin_len--, bin_data++ ) {
        leftchar = (leftchar << 8) | *bin_data;
        leftbits += 8;
        while ( leftbits >= 6 ) {
            this_ch = (leftchar >> (leftbits-6)) & 0x3f;
            leftbits -= 6;
            *ascii_data++ = table_b2a_base64[this_ch];
        }
    }
    if ( leftbits == 2 ) {
        *ascii_data++ = table_b2a_base64[(leftchar&3) << 4];
        *ascii_data++ = BASE64_PAD;
        *ascii_data++ = BASE64_PAD;
    } else if ( leftbits == 4 ) {
        *ascii_data++ = table_b2a_base64[(leftchar&0xf) << 2];
        *ascii_data++ = BASE64_PAD;
    }
    if (newline)
        *ascii_data++ = '\n';
>> *)

Module binascii.

Local Open Scope Z_scope.

Definition table_b2a_base64 : list byte :=
  list_byte_of_string
    "ABCDEFGHIJKLMNOPQRSTUVWXYZabcdefghijklmnopqrstuvwxyz0123456789+/".

Definition BASE64_PAD : byte := x3d.

(** [table_b2a_base64[i]] *)
Definition table_at (i : Z) : byte :=
  nth (Z.to_nat i) table_b2a_base64 x00.

(** Arithmetic on [unsigned int] wraps at 32 bits. *)
Definition uint (z : Z) : Z := z mod 2 ^ 32.

(** The inner [while] loop.  Every iteration takes six off [leftbits], so
    [leftbits] iterations are always enough. *)
Fixpoint drain (fuel : nat) (leftchar leftbits : Z) : list byte * Z :=
  match fuel with
  | O => ([], leftbits)
  | S fuel' =>
      if 6 <=? leftbits then
        let this_ch := Z.land (Z.shiftr leftchar (leftbits - 6)) 63 in
        let leftbits := leftbits - 6 in
        let (out, leftbits') := drain fuel' leftchar leftbits in
        (table_at this_ch :: out, leftbits')
      else ([], leftbits)
  end.

(** The [for] loop, followed by the padding of the last group. *)
Fixpoint b2a_loop (bin_data : list byte) (leftchar leftbits : Z)
  : list byte :=
  match bin_data with
  | c :: bin_data' =>
      let leftchar := uint (Z.lor (Z.shiftl leftchar 8) (byte_val c)) in
      let leftbits := leftbits + 8 in
      let (out, leftbits) := drain (Z.to_nat leftbits) leftchar leftbits in
      out ++ b2a_loop bin_data' leftchar leftbits
  | [] =>
      if leftbits =? 2 then
        [table_at (Z.shiftl (Z.land leftchar 3) 4); BASE64_PAD; BASE64_PAD]
      else if leftbits =? 4 then
        [table_at (Z.shiftl (Z.land leftchar 15) 2); BASE64_PAD]
      else []
  end.

Definition b2a_base64 (data : list byte) (newline : bool) : list byte :=
  b2a_loop data 0 0 ++ (if newline then [x0a] else []).

End binascii.

Module base64.

Definition b64encode (s : list byte) : list byte :=
  binascii.b2a_base64 s false.

End base64.

(** ** Standard base64, as RFC 4648 section 4 words it

    Written from the RFC, to compare the encoder above with: groups of three
    bytes form a 24-bit number that is read as four 6-bit digits; a last
    group of one or two bytes is filled with zero bits on the right to a
    whole number of digits and padded with [=] to four characters. *)

Module rfc4648.

Local Open Scope Z_scope.

(** Table 1: the base 64 alphabet. *)
Definition enc (v : Z) : byte :=
  if v <? 26 then byte_of_Z (65 + v)               (* A-Z *)
  else if v <? 52 then byte_of_Z (97 + (v - 26))   (* a-z *)
  else if v <? 62 then byte_of_Z (48 + (v - 52))   (* 0-9 *)
  else if v =? 62 then x2b                         (* + *)
  else x2f.                                        (* / *)

Definition dec (c : byte) : option Z :=
  let v := byte_val c in
  if (65 <=? v) && (v <=? 90) then Some (v - 65)
  else if (97 <=? v) && (v <=? 122) then Some (v - 97 + 26)
  else if (48 <=? v) && (v <=? 57) then Some (v - 48 + 52)
  else if v =? 43 then Some 62
  else if v =? 47 then Some 63
  else None.

Definition pad : byte := x3d.

Fixpoint encode (bs : list byte) : list byte :=
  match bs with
  | [] => []
  | [a] =>
      let n := byte_val a * 2 ^ 4 in
      [enc (n / 2 ^ 6); enc (n mod 2 ^ 6); pad; pad]
  | [a; b] =>
      let n := (byte_val a * 2 ^ 8 + byte_val b) * 2 ^ 2 in
      [enc (n / 2 ^ 12); enc (n / 2 ^ 6 mod 2 ^ 6); enc (n mod 2 ^ 6); pad]
  | a :: b :: c :: rest =>
      let n := byte_val a * 2 ^ 16 + byte_val b * 2 ^ 8 + byte_val c in
      [enc (n / 2 ^ 18); enc (n / 2 ^ 12 mod 2 ^ 6);
       enc (n / 2 ^ 6 mod 2 ^ 6); enc (n mod 2 ^ 6)] ++ encode rest
  end.

(** The strict decoder: whole groups of four characters, padding only in
    the last group, and the filled bits of a padded group zero. *)
Fixpoint decode (cs : list byte) : option (list byte) :=
  match cs with
  | [] => Some []
  | c1 :: c2 :: c3 :: c4 :: rest =>
      match dec c1, dec c2, dec c3, dec c4 with
      | Some v1, Some v2, Some v3, Some v4 =>
          let n := ((v1 * 64 + v2) * 64 + v3) * 64 + v4 in
          match decode rest with
          | Some bs =>
              Some (byte_of_Z (n / 2 ^ 16) :: byte_of_Z (n / 2 ^ 8)
                    :: byte_of_Z n :: bs)
          | None => None
          end
      | Some v1, Some v2, Some v3, None =>
          let n := (v1 * 64 + v2) * 64 + v3 in
          match rest with
          | [] =>
              if Byte.eqb c4 pad && (n mod 2 ^ 2 =? 0)
              then Some [byte_of_Z (n / 2 ^ 10); byte_of_Z (n / 2 ^ 2)]
              else None
          | _ :: _ => None
          end
      | Some v1, Some v2, None, None =>
          let n := v1 * 64 + v2 in
          match rest with
          | [] =>
              if Byte.eqb c3 pad && Byte.eqb c4 pad && (n mod 2 ^ 4 =? 0)
              then Some [byte_of_Z (n / 2 ^ 4)]
              else None
          | _ :: _ => None
          end
      | _, _, _, _ => None
      end
  | _ => None
  end.

(** A character of the encoded text: of the alphabet, or the padding. *)
Definition is_b64_char (c : byte) : bool :=
  match dec c with
  | Some _ => true
  | None => Byte.eqb c pad
  end.

End rfc4648.

(** ** [str] and [bytes.decode('utf-8')]

    A Python [str] is represented by the [string] of its UTF-8 bytes, which
    determines it.  Decoding a [bytes] object as UTF-8 then keeps the bytes
    and raises [UnicodeDecodeError] when they are not well-formed UTF-8
    (Unicode, table 3-7). *)

Definition in_range (lo hi : Z) (b : byte) : bool :=
  ((lo <=? byte_val b) && (byte_val b <=? hi))%Z.

Definition utf8_tail (b : byte) : bool := in_range 128 191 b.

Fixpoint utf8_well_formed (bs : list byte) : bool :=
  match bs with
  | [] => true
  | b0 :: r0 =>
      if in_range 0 127 b0 then utf8_well_formed r0
      else
        match r0 with
        | [] => false
        | b1 :: r1 =>
            if in_range 194 223 b0 then utf8_tail b1 && utf8_well_formed r1
            else
              match r1 with
              | [] => false
              | b2 :: r2 =>
                  if in_range 224 239 b0 then
                    (if in_range 224 224 b0 then in_range 160 191 b1
                     else if in_range 237 237 b0 then in_range 128 159 b1
                     else utf8_tail b1)
                    && utf8_tail b2 && utf8_well_formed r2
                  else
                    match r2 with
                    | [] => false
                    | b3 :: r3 =>
                        in_range 240 244 b0
                        && (if in_range 240 240 b0 then in_range 144 191 b1
                            else if in_range 244 244 b0
                                 then in_range 128 143 b1
                                 else utf8_tail b1)
                        && utf8_tail b2 && utf8_tail b3
                        && utf8_well_formed r3
                    end
              end
        end
  end.

Definition bytes_decode_utf8 (bs : list byte) : result string :=
  if utf8_well_formed bs then Ok (string_of_list_byte bs)
  else Raise UnicodeDecodeError.

(** [s.removeprefix(p)], when [s] starts with [p]. *)
Fixpoint strip_prefix (p s : string) : option string :=
  match p, s with
  | EmptyString, _ => Some s
  | String a p', String b s' =>
      if Ascii.eqb a b then strip_prefix p' s' else None
  | String _ _, EmptyString => None
  end.

(** ** [io.BytesIO]

    An in-memory buffer with a position.  [write] overwrites from the
    position on, filling with zero bytes when the position is beyond the end,
    and advances the position; [seek] sets it; [getvalue] is the whole
    contents, whatever the position. *)

Module BytesIO.

Record t : Type := mk { buf : list byte; pos : nat }.

Definition new : t := {| buf := []; pos := 0 |}.

Definition write (b : t) (bs : list byte) : t :=
  match bs with
  | [] => b
  | _ :: _ =>
      let head := firstn (pos b) (buf b)
                  ++ repeat x00 (pos b - length (buf b)) in
      let tail := skipn (pos b + length bs) (buf b) in
      {| buf := head ++ bs ++ tail; pos := pos b + length bs |}
  end.

Definition seek (b : t) (p : nat) : t := {| buf := buf b; pos := p |}.

Definition getvalue (b : t) : list byte := buf b.

End BytesIO.

(** ** The image encoder (notebook cell 3)
<<
def image_to_base64(image: Image.Image):
    buffer = BytesIO()
    image.save(buffer, format="PNG")
    buffer.seek(0)
    image_data = buffer.getvalue()
    image_base64 = base64.b64encode(image_data).decode('utf-8')
    mime_type = "image/png"
    image_uri = f"data:{mime_type};base64,{image_base64}"
    return image_uri
>>
    Pillow's PNG encoder is not part of the notebook: [png_encode] is the
    PNG serialisation [image.save(fp, format="PNG")] writes to [fp], or the
    exception it raises (for instance for a colour mode PNG cannot hold). *)

(** The literal every data URI of the encoder starts with:
    [data:{mime_type};base64,] with [mime_type = "image/png"]. *)
Definition uri_prefix : string := "data:image/png;base64,".

Section ImageEncoder.

Variable Image : Type.
Variable png_encode : Image -> result (list byte).

Definition Image_save_PNG (image : Image) (fp : BytesIO.t)
  : result BytesIO.t :=
  png <- png_encode image ;;
  Ok (BytesIO.write fp png).

Definition image_to_base64 (image : Image) : result string :=
  let buffer := BytesIO.new in
  buffer <- Image_save_PNG image buffer ;;
  let buffer := BytesIO.seek buffer 0 in
  let image_data := BytesIO.getvalue buffer in
  image_base64 <- bytes_decode_utf8 (base64.b64encode image_data) ;;
  let mime_type := "image/png"%string in
  let image_uri :=
    ("data:" ++ mime_type ++ ";base64," ++ image_base64)%string in
  Ok image_uri.

End ImageEncoder.

Arguments Image_save_PNG {Image} png_encode image fp.
Arguments image_to_base64 {Image} png_encode image.

(** ** The embeddings requests (notebook cell 12)

    The endpoint is an external service: [embeddings_create] is
    [client.embeddings.create], which returns the parsed response or raises.
<<
image_embedding = client.embeddings.create(
    input=[prompt], model=..., extra_body = {"image_url": image_uri}
).data[0].embedding
text_embedding = client.embeddings.create(
    input=[text], model=...
).data[0].embedding
>> *)

Record Embedding : Type := mk_Embedding {
  embedding : list R;
  index : Z
}.

Record CreateEmbeddingResponse : Type := mk_Response {
  data : list Embedding;
  response_model : string
}.

Record EmbeddingRequest : Type := mk_Request {
  input : list string;
  model : string;
  extra_body : list (string * string)
}.

(** [response.data[0].embedding] *)
Definition first_embedding (response : CreateEmbeddingResponse)
  : result (list R) :=
  d <- list_getitem (data response) 0 ;;
  Ok (embedding d).

Definition model_name : string :=
  "mlx-community/Qwen2.5-VL-3B-Instruct-4bit".

Section Notebook.

Variable Image : Type.
Variable png_encode : Image -> result (list byte).
Variable embeddings_create :
  EmbeddingRequest -> result CreateEmbeddingResponse.

Definition prompt : string := "Describe the image in detail".

Definition text : string := "A green dog looking at the camera".

Definition image_request (image_uri : string) : EmbeddingRequest :=
  {| input := [prompt];
     model := model_name;
     extra_body := [("image_url"%string, image_uri)] |}.

Definition text_request : EmbeddingRequest :=
  {| input := [text];
     model := model_name;
     extra_body := [] |}.

(** Cells 5, 12 and 13 in order, from the opened image to the similarity
    that is printed. *)
Definition notebook (image : Image) : result R :=
  image_uri <- image_to_base64 png_encode image ;;
  response <- embeddings_create (image_request image_uri) ;;
  image_embedding <- first_embedding response ;;
  response <- embeddings_create text_request ;;
  text_embedding <- first_embedding response ;;
  similarity <- cosine_similarity image_embedding text_embedding ;;
  Ok similarity.

End Notebook.

Arguments notebook {Image} png_encode embeddings_create image.

(** ** A concrete instance to run the notebook on

    The theorems below hold for every PNG encoder and every endpoint.  To
    evaluate the definitions on an input, [raw_png_encode] writes the 8-byte
    PNG signature followed by the pixel bytes and refuses an image without
    pixels, [raw_png_decode] reads that back, and [two_result_endpoint]
    answers every request with the same two results. *)

Definition png_signature : list byte :=
  [x89; x50; x4e; x47; x0d; x0a; x1a; x0a].

Definition raw_png_encode (pixels : list byte) : result (list byte) :=
  match pixels with
  | [] => Raise OSError_cannot_write_as_PNG
  | _ :: _ => Ok (png_signature ++ pixels)
  end.

Fixpoint strip_bytes (p bs : list byte) : option (list byte) :=
  match p, bs with
  | [], _ => Some bs
  | a :: p', b :: bs' => if Byte.eqb a b then strip_bytes p' bs' else None
  | _ :: _, [] => None
  end.

Definition raw_png_decode (png : list byte) : option (list byte) :=
  strip_bytes png_signature png.

(** An image of this instance is its pixel bytes. *)
Definition raw_pixels (image : list byte) : list byte := image.

Definition two_result_endpoint (request : EmbeddingRequest)
  : result CreateEmbeddingResponse :=
  Ok {| data := [ {| embedding := [1; 0]%R; index := 0 |};
                  {| embedding := [0; 1]%R; index := 1 |} ];
        response_model := model request |}.

(** ** Characters of a JSON string

    RFC 8259, section 7: inside a JSON string every character may stand for
    itself except the quotation mark, the reverse solidus and the control
    characters below U+0020.  [json_plain] holds of the ASCII bytes that
    need no escape. *)

Definition json_plain (b : byte) : bool :=
  in_range 32 127 b
  && negb (byte_val b =? 34)%Z && negb (byte_val b =? 92)%Z.

(** A byte that is one of the 64 digits of base64, not the padding. *)
Definition is_b64_digit (c : byte) : bool :=
  match rfc4648.dec c with
  | Some _ => true
  | None => false
  end.

(** The number of [=] that close the encoding of [n] bytes. *)
Definition pad_count (n : nat) : nat :=
  match Nat.modulo n 3 with
  | 0 => 0
  | 1 => 2
  | _ => 1
  end.

(** ** The requests the notebook sends

    [client.embeddings.create] is a call to a service outside the notebook.
    To say which calls are made and in which order, the cells are written
    once more in a monad that also keeps the requests sent so far; a step
    that raises ends the run and leaves the requests sent before it.  The
    run starts at cell 5, which opens the image file:
<<
image = Image.open("images/green_dog.jpeg")
image_uri = image_to_base64(image)
>> *)

Definition sent (A : Type) : Type := (list EmbeddingRequest * result A)%type.

(** A step that sends nothing. *)
Definition quiet {A : Type} (m : result A) : sent A := ([], m).

Definition bind_sent {A B : Type} (m : sent A) (k : A -> sent B) : sent B :=
  match m with
  | (log, Ok a) => let (log', r) := k a in (log ++ log', r)
  | (log, Raise e) => (log, Raise e)
  end.

Notation "x <~ m ;; k" := (bind_sent m (fun x => k))
  (at level 61, m at next level, right associativity) : py_scope.

Section NotebookRequests.

Variable Image : Type.
Variable Image_open : string -> result Image.
Variable png_encode : Image -> result (list byte).
Variable embeddings_create :
  EmbeddingRequest -> result CreateEmbeddingResponse.

(** [client.embeddings.create(...)], recorded. *)
Definition create (request : EmbeddingRequest)
  : sent CreateEmbeddingResponse :=
  ([request], embeddings_create request).

Definition notebook_requests (image : Image) : sent R :=
  image_uri <~ quiet (image_to_base64 png_encode image) ;;
  response <~ create (image_request image_uri) ;;
  image_embedding <~ quiet (first_embedding response) ;;
  response <~ create text_request ;;
  text_embedding <~ quiet (first_embedding response) ;;
  similarity <~ quiet (cosine_similarity image_embedding text_embedding) ;;
  quiet (Ok similarity).

Definition image_path : string := "images/green_dog.jpeg".

Definition run_all : sent R :=
  image <~ quiet (Image_open image_path) ;;
  notebook_requests image.

End NotebookRequests.

Arguments notebook_requests {Image} png_encode embeddings_create image.
Arguments run_all {Image} Image_open png_encode embeddings_create.

(** Endpoints and an image file to run the requests on: one endpoint answers
    with an empty result list, one with an embedding of three components
    for a request without image and of two for one with; every path opens
    the same image. *)

Definition empty_endpoint (request : EmbeddingRequest)
  : result CreateEmbeddingResponse :=
  Ok {| data := []; response_model := model request |}.

Definition uneven_endpoint (request : EmbeddingRequest)
  : result CreateEmbeddingResponse :=
  match extra_body request with
  | [] => Ok {| data := [ {| embedding := [1; 0; 0]%R; index := 0 |} ];
                response_model := model request |}
  | _ :: _ => Ok {| data := [ {| embedding := [1; 0]%R; index := 0 |} ];
                    response_model := model request |}
  end.

Definition one_image_open (path : string) : result (list byte) :=
  Ok [xff; x00; x80].

(** ** binary64

    A Python float, and an element of a float64 array, is an IEEE 754
    binary64 number.  [spec_float] is the standard library's executable
    specification of IEEE arithmetic (signed zeros, infinities, one NaN,
    finite numbers [m * 2^e]); with 53 bits of precision and exponents up to
    1024 it is binary64, rounding to nearest, ties to even. *)

Module Float64.

Definition prec : Z := 53.
Definition emax : Z := 1024.

Definition float64 : Type := spec_float.

(** A finite number is a binary64 number when its mantissa is canonical and
    its exponent in range. *)
Definition valid (x : float64) : bool := valid_binary prec emax x.

Definition zero : float64 := S754_zero false.

Definition add : float64 -> float64 -> float64 := SFadd prec emax.
Definition mul : float64 -> float64 -> float64 := SFmul prec emax.

(** [x == y] and [x < y] on floats: false as soon as one side is NaN. *)
Definition eqb : float64 -> float64 -> bool := SFeqb.
Definition ltb : float64 -> float64 -> bool := SFltb.

Definition is_nan (x : float64) : bool :=
  match x with
  | S754_nan => true
  | _ => false
  end.

(** The binary64 number nearest to [m * 2^e]; [m * 2^e] itself when it is
    representable. *)
Definition of_Z (m e : Z) : float64 := binary_normalize prec emax m e false.

Definition one : float64 := of_Z 1 0.

(** The exact value of a finite number, as a rational and as a real. *)
Definition to_Q (x : float64) : Q :=
  match x with
  | S754_finite s m e =>
      (inject_Z (if s then Zneg m else Zpos m) * Qpower 2 e)%Q
  | _ => 0%Q
  end.

Definition to_R (x : float64) : R := Q2R (to_Q x).

(** *** numpy on float64 arrays

    [np.array] of a list of Python floats has dtype float64.  The inner
    product of two such arrays is numpy's [DOUBLE_dot]:
<<
    npy_double tmp = 0.0;
    for (i = 0; i < n; i++) {
        tmp += ip1[i] * ip2[i];
    }
    op[0] = tmp;
>>
    (the pointer and stride arithmetic of the C loop written as indexing): a
    product and a sum in binary64 for every index, in index order.  (A
    BLAS library that numpy is linked with may add the same products in
    another order.) *)

Record ndarray : Type := mk_ndarray { shape0 : nat; data : list float64 }.

Definition array (l : list float64) : ndarray :=
  {| shape0 := length l; data := l |}.

Definition dot_step (tmp : float64) (p : float64 * float64) : float64 :=
  add tmp (mul (fst p) (snd p)).

Definition DOUBLE_dot (x y : list float64) : float64 :=
  fold_left dot_step (combine x y) zero.

Definition dot (a b : ndarray) : result float64 :=
  if Nat.eqb (shape0 a) (shape0 b)
  then Ok (DOUBLE_dot (data a) (data b))
  else Raise (ValueError_shapes_not_aligned (shape0 a) (shape0 b)).

(** [c * a] for a scalar [c] and an array [a]. *)
Definition scale (c : float64) (a : list float64) : list float64 :=
  map (mul c) a.

(** The scorer of cell 13 on two lists of Python floats. *)
Definition cosine_similarity (a b : list float64) : result float64 :=
  let a := array a in
  let b := array b in
  dot a b.

(** The sum of [f i] over [0 <= i < n] taken in binary64, in index order
    from [0.0]; and the dot product written with it. *)
Fixpoint index_sum (f : nat -> float64) (n : nat) : float64 :=
  match n with
  | O => zero
  | S k => add (index_sum f k) (f k)
  end.

Definition dot_product_spec (n : nat) (a b : list float64) : float64 :=
  index_sum (fun i => mul (nth i a zero) (nth i b zero)) n.

End Float64.

(** NaN, or a number whose sign bit is clear. *)
Definition sign_clear (x : Float64.float64) : Prop :=
  match x with
  | S754_nan => True
  | S754_zero s | S754_infinity s | S754_finite s _ _ => s = false
  end.

(** ** Pillow's PNG writer on palette images

    Not part of the notebook: modelled from Pillow's [PngImagePlugin._save]
    and [Pack.c], as far as they decide which pixel data a PNG written from
    an image of mode [P] holds.  The writer picks the bit depth from the
    number of palette entries,
<<
    colors = max(min(len(im.palette.getdata()[1]) // 3, 256), 1)
    if colors <= 16:
        if colors <= 2:   bits = 1
        elif colors <= 4: bits = 2
        else:             bits = 4
>>
    and packs every index into that many bits: [pack1] stores whether the
    index is non-zero, [packP2] and [packP4] store its low 2 and 4 bits. *)

Module PngImagePlugin.

Record PImage : Type := mk_PImage {
  size : nat * nat;
  palette : list (byte * byte * byte);
  pixels : list byte
}.

Definition colors (im : PImage) : nat :=
  Nat.max (Nat.min (length (palette im)) 256) 1.

Definition bits (colors : nat) : Z :=
  if Nat.leb colors 2 then 1
  else if Nat.leb colors 4 then 2
  else if Nat.leb colors 16 then 4
  else 8.

(** The index as the packed scanline holds it. *)
Definition packed_index (bits : Z) (p : byte) : byte :=
  if (bits =? 1)%Z then (if (byte_val p =? 0)%Z then x00 else x01)
  else if (bits =? 2)%Z then byte_of_Z (Z.land (byte_val p) 3)
  else if (bits =? 4)%Z then byte_of_Z (Z.land (byte_val p) 15)
  else p.

(** What the PNG holds of the image: the header fields, the palette and the
    packed indices.  The bytes of the file are a function of these. *)
Record PngContent : Type := mk_PngContent {
  IHDR_size : nat * nat;
  IHDR_bit_depth : Z;
  PLTE : list (byte * byte * byte);
  IDAT_indices : list byte
}.

Definition png_content (im : PImage) : PngContent :=
  let depth := bits (colors im) in
  {| IHDR_size := size im;
     IHDR_bit_depth := depth;
     PLTE := palette im;
     IDAT_indices := map (packed_index depth) (pixels im) |}.

End PngImagePlugin.

(** The round trip through the data URI for one image: strip the prefix,
    base64-decode the rest, parse the bytes as PNG, and find the pixel data
    of the image. *)
Definition round_trips {Image Pixels : Type}
           (png_encode : Image -> result (list byte))
           (png_parse : list byte -> option Image)
           (pixels : Image -> Pixels) (image : Image) : Prop :=
  exists (uri payload : string) (png : list byte) (image' : Image),
    image_to_base64 png_encode image = Ok uri /\
    strip_prefix "data:image/png;base64," uri = Some payload /\
    rfc4648.decode (list_byte_of_string payload) = Some png /\
    png_parse png = Some image' /\
    pixels image' = pixels image.

(* ================================================================== *)
(** * Theorems *)
(* ================================================================== *)
(** ** Bytes and bit operations *)

Section Bytes.

Local Open Scope Z_scope.

Lemma byte_val_range (b : byte) : 0 <= byte_val b < 256.
Proof.
  unfold byte_val. pose proof (Byte.to_N_bounded b). lia.
Qed.

Lemma byte_of_Z_val (b : byte) : byte_of_Z (byte_val b) = b.
Proof.
  unfold byte_of_Z. rewrite Z.mod_small by apply byte_val_range.
  unfold byte_val. rewrite N2Z.id, Byte.of_to_N. reflexivity.
Qed.

Lemma byte_val_of_Z (z : Z) : 0 <= z < 256 -> byte_val (byte_of_Z z) = z.
Proof.
  intros H. unfold byte_of_Z. rewrite Z.mod_small by exact H.
  destruct (Byte.of_N (Z.to_N z)) as [b|] eqn:E.
  - apply Byte.to_of_N in E. unfold byte_val. rewrite E. lia.
  - pose proof (Byte.to_of_N_option_map (Z.to_N z)) as M.
    rewrite E in M. simpl in M.
    destruct (N.leb_spec (Z.to_N z) 255); [discriminate M | lia].
Qed.

(** The bits of [a] lie below those of [x << k]. *)
Lemma land_shiftl_low (x a k : Z) :
  0 <= k -> 0 <= a < 2 ^ k -> Z.land (Z.shiftl x k) a = 0.
Proof.
  intros Hk Ha. apply Z.bits_inj'. intros i Hi.
  rewrite Z.land_spec, Z.bits_0.
  destruct (Z.lt_ge_cases i k) as [Hlt|Hge].
  - rewrite Z.shiftl_spec_low by exact Hlt. reflexivity.
  - rewrite <- (Z.mod_small a (2 ^ k)) by exact Ha.
    rewrite Z.mod_pow2_bits_high by lia. apply andb_false_r.
Qed.

Lemma lor_shiftl (x a k : Z) :
  0 <= k -> 0 <= a < 2 ^ k -> Z.lor (Z.shiftl x k) a = x * 2 ^ k + a.
Proof.
  intros Hk Ha.
  rewrite <- Z.lxor_lor by (apply land_shiftl_low; assumption).
  rewrite <- Z.add_nocarry_lxor by (apply land_shiftl_low; assumption).
  rewrite Z.shiftl_mul_pow2 by exact Hk. reflexivity.
Qed.

Lemma land_63 (x : Z) : Z.land x 63 = x mod 64.
Proof. change 63 with (Z.ones 6). rewrite Z.land_ones by lia. reflexivity. Qed.

Lemma land_15 (x : Z) : Z.land x 15 = x mod 16.
Proof. change 15 with (Z.ones 4). rewrite Z.land_ones by lia. reflexivity. Qed.

Lemma land_3 (x : Z) : Z.land x 3 = x mod 4.
Proof. change 3 with (Z.ones 2). rewrite Z.land_ones by lia. reflexivity. Qed.

(** A property of the 6-bit digits that is checked on all 64 of them. *)
Lemma sextet_cases (P : Z -> bool) :
  forallb P (map Z.of_nat (seq 0 64)) = true ->
  forall v, 0 <= v < 64 -> P v = true.
Proof.
  intros H v Hv. rewrite forallb_forall in H. apply H.
  replace v with (Z.of_nat (Z.to_nat v)) by lia.
  apply in_map, in_seq. lia.
Qed.

End Bytes.

(** ** Base64: the encoder of CPython against RFC 4648 *)

Section Base64.

Local Open Scope Z_scope.

(** The table of the C code is the alphabet of the RFC. *)
Lemma table_at_enc (v : Z) :
  0 <= v < 64 -> binascii.table_at v = rfc4648.enc v.
Proof.
  intros Hv. apply Byte.byte_dec_bl.
  apply (sextet_cases
           (fun v => Byte.eqb (binascii.table_at v) (rfc4648.enc v)));
    [vm_compute; reflexivity | exact Hv].
Qed.

Lemma dec_enc (v : Z) : 0 <= v < 64 -> rfc4648.dec (rfc4648.enc v) = Some v.
Proof.
  intros Hv.
  pose proof (sextet_cases
                (fun v => match rfc4648.dec (rfc4648.enc v) with
                          | Some w => w =? v
                          | None => false
                          end)) as H.
  specialize (H eq_refl v Hv). cbv beta in H.
  destruct (rfc4648.dec (rfc4648.enc v)) as [w|]; [|discriminate H].
  apply Z.eqb_eq in H. congruence.
Qed.

Lemma dec_pad : rfc4648.dec rfc4648.pad = None.
Proof. reflexivity. Qed.

Lemma drain_8 (lc : Z) :
  binascii.drain (Z.to_nat 8) lc 8
  = ([binascii.table_at (Z.land (Z.shiftr lc 2) 63)], 2).
Proof. reflexivity. Qed.

Lemma drain_10 (lc : Z) :
  binascii.drain (Z.to_nat 10) lc 10
  = ([binascii.table_at (Z.land (Z.shiftr lc 4) 63)], 4).
Proof. reflexivity. Qed.

Lemma drain_12 (lc : Z) :
  binascii.drain (Z.to_nat 12) lc 12
  = ([binascii.table_at (Z.land (Z.shiftr lc 6) 63);
      binascii.table_at (Z.land (Z.shiftr lc 0) 63)], 0).
Proof. reflexivity. Qed.

(** The [while] loop leaves fewer than six bits: the fuel it is given is
    never what stops it. *)
Lemma drain_exit (fuel : nat) (lc lb : Z) :
  (Z.to_nat lb <= fuel)%nat -> snd (binascii.drain fuel lc lb) < 6.
Proof.
  revert lb. induction fuel as [|fuel IH]; intros lb Hf; simpl.
  - lia.
  - destruct (Z.leb_spec 6 lb) as [Hge|Hlt]; [|simpl; lia].
    specialize (IH (lb - 6)).
    destruct (binascii.drain fuel lc (lb - 6)) as [out lb'].
    simpl in *. apply IH. lia.
Qed.

Lemma b2a_loop_cons (c : byte) (l : list byte) (lc lb : Z) :
  binascii.b2a_loop (c :: l) lc lb
  = (let lc' := binascii.uint (Z.lor (Z.shiftl lc 8) (byte_val c)) in
     let (out, lb') := binascii.drain (Z.to_nat (lb + 8)) lc' (lb + 8) in
     out ++ binascii.b2a_loop l lc' lb').
Proof. reflexivity. Qed.

Ltac bits_to_arith :=
  unfold binascii.uint;
  rewrite ?lor_shiftl by lia;
  rewrite ?land_63, ?land_15, ?land_3;
  rewrite ?Z.shiftr_div_pow2, ?Z.shiftl_mul_pow2 by lia;
  Z.div_mod_to_equations; lia.

(** The digits the loop emits for one, two and three bytes, whatever was
    left in [leftchar] by the groups before. *)
Lemma digits_1 (lc a : Z) :
  0 <= a < 256 ->
  let lc1 := binascii.uint (Z.lor (Z.shiftl lc 8) a) in
  let n := a * 2 ^ 4 in
  Z.land (Z.shiftr lc1 2) 63 = n / 2 ^ 6 /\
  Z.shiftl (Z.land lc1 3) 4 = n mod 2 ^ 6.
Proof. intros Ha lc1 n. subst lc1 n. split; bits_to_arith. Qed.

Lemma digits_2 (lc a b : Z) :
  0 <= a < 256 -> 0 <= b < 256 ->
  let lc1 := binascii.uint (Z.lor (Z.shiftl lc 8) a) in
  let lc2 := binascii.uint (Z.lor (Z.shiftl lc1 8) b) in
  let n := (a * 2 ^ 8 + b) * 2 ^ 2 in
  Z.land (Z.shiftr lc1 2) 63 = n / 2 ^ 12 /\
  Z.land (Z.shiftr lc2 4) 63 = n / 2 ^ 6 mod 2 ^ 6 /\
  Z.shiftl (Z.land lc2 15) 2 = n mod 2 ^ 6.
Proof.
  intros Ha Hb lc1 lc2 n. subst lc1 lc2 n.
  split; [|split]; bits_to_arith.
Qed.

Lemma digits_3 (lc a b c : Z) :
  0 <= a < 256 -> 0 <= b < 256 -> 0 <= c < 256 ->
  let lc1 := binascii.uint (Z.lor (Z.shiftl lc 8) a) in
  let lc2 := binascii.uint (Z.lor (Z.shiftl lc1 8) b) in
  let lc3 := binascii.uint (Z.lor (Z.shiftl lc2 8) c) in
  let n := a * 2 ^ 16 + b * 2 ^ 8 + c in
  Z.land (Z.shiftr lc1 2) 63 = n / 2 ^ 18 /\
  Z.land (Z.shiftr lc2 4) 63 = n / 2 ^ 12 mod 2 ^ 6 /\
  Z.land (Z.shiftr lc3 6) 63 = n / 2 ^ 6 mod 2 ^ 6 /\
  Z.land (Z.shiftr lc3 0) 63 = n mod 2 ^ 6.
Proof.
  intros Ha Hb Hc lc1 lc2 lc3 n. subst lc1 lc2 lc3 n.
  split; [|split; [|split]]; bits_to_arith.
Qed.

(** Induction on a list of bytes by groups of three. *)
Lemma list_ind3 (A : Type) (P : list A -> Prop) :
  P [] ->
  (forall a, P [a]) ->
  (forall a b, P [a; b]) ->
  (forall a b c l, P l -> P (a :: b :: c :: l)) ->
  forall l, P l.
Proof.
  intros H0 H1 H2 H3.
  refine (fix go (l : list A) : P l :=
            match l with
            | [] => H0
            | [a] => H1 a
            | [a; b] => H2 a b
            | a :: b :: c :: l' => H3 a b c l' (go l')
            end).
Qed.

Ltac digit_range :=
  repeat match goal with
         | |- context [byte_val ?b] =>
             pose proof (byte_val_range b); generalize dependent (byte_val b)
         end;
  intros; Z.div_mod_to_equations; lia.

(** The loop of [b2a_base64], entered between two groups, produces the
    encoding of the RFC. *)
Lemma b2a_loop_rfc (bs : list byte) :
  forall lc, binascii.b2a_loop bs lc 0 = rfc4648.encode bs.
Proof.
  induction bs as [|a|a b|a b c rest IH] using list_ind3; intros lc.
  - reflexivity.
  - rewrite b2a_loop_cons. cbv zeta. change (0 + 8) with 8.
    rewrite drain_8. cbv iota beta.
    destruct (digits_1 lc (byte_val a) (byte_val_range a)) as [E1 E2].
    cbv zeta in E1, E2.
    cbn [app binascii.b2a_loop Z.eqb Pos.eqb rfc4648.encode].
    rewrite E1, E2. rewrite !table_at_enc by digit_range. reflexivity.
  - rewrite b2a_loop_cons. cbv zeta. change (0 + 8) with 8.
    rewrite drain_8. cbv iota beta.
    cbn [app]. rewrite b2a_loop_cons. cbv zeta. change (2 + 8) with 10.
    rewrite drain_10. cbv iota beta.
    destruct (digits_2 lc (byte_val a) (byte_val b)
                (byte_val_range a) (byte_val_range b)) as [E1 [E2 E3]].
    cbv zeta in E1, E2, E3.
    cbn [app binascii.b2a_loop Z.eqb Pos.eqb rfc4648.encode].
    rewrite E1, E2, E3. rewrite !table_at_enc by digit_range. reflexivity.
  - rewrite b2a_loop_cons. cbv zeta. change (0 + 8) with 8.
    rewrite drain_8. cbv iota beta.
    cbn [app]. rewrite b2a_loop_cons. cbv zeta. change (2 + 8) with 10.
    rewrite drain_10. cbv iota beta.
    cbn [app]. rewrite b2a_loop_cons. cbv zeta. change (4 + 8) with 12.
    rewrite drain_12. cbv iota beta.
    destruct (digits_3 lc (byte_val a) (byte_val b) (byte_val c)
                (byte_val_range a) (byte_val_range b) (byte_val_range c))
      as [E1 [E2 [E3 E4]]].
    cbv zeta in E1, E2, E3, E4.
    cbn [app rfc4648.encode].
    rewrite E1, E2, E3, E4, IH.
    rewrite !table_at_enc by digit_range. reflexivity.
Qed.

(** [base64.b64encode] is the standard padded base64 encoding. *)
Lemma b64encode_rfc (bs : list byte) :
  base64.b64encode bs = rfc4648.encode bs.
Proof.
  unfold base64.b64encode, binascii.b2a_base64.
  rewrite b2a_loop_rfc. apply app_nil_r.
Qed.

End Base64.

Section Base64RoundTrip.

Local Open Scope Z_scope.

Lemma byte_of_Z_mod (z : Z) (b : byte) :
  z mod 256 = byte_val b -> byte_of_Z z = b.
Proof.
  intros H. rewrite <- (byte_of_Z_val b). unfold byte_of_Z.
  rewrite H. rewrite (Z.mod_small (byte_val b)) by apply byte_val_range.
  reflexivity.
Qed.

Ltac byte_arith :=
  repeat match goal with
         | |- context [byte_val ?b] =>
             pose proof (byte_val_range b); generalize dependent (byte_val b)
         end;
  intros; Z.div_mod_to_equations; lia.

(** Decoding inverts the encoding of the RFC. *)
Lemma decode_encode (bs : list byte) :
  rfc4648.decode (rfc4648.encode bs) = Some bs.
Proof.
  induction bs as [|a|a b|a b c rest IH] using list_ind3.
  - reflexivity.
  - cbn [rfc4648.encode rfc4648.decode].
    rewrite !dec_enc by byte_arith. rewrite dec_pad.
    change (Byte.eqb rfc4648.pad rfc4648.pad) with true. cbn [andb].
    replace (_ =? 0) with true by (symmetry; apply Z.eqb_eq; byte_arith).
    f_equal. f_equal. apply byte_of_Z_mod. byte_arith.
  - cbn [rfc4648.encode rfc4648.decode].
    rewrite !dec_enc by byte_arith. rewrite dec_pad.
    change (Byte.eqb rfc4648.pad rfc4648.pad) with true. cbn [andb].
    replace (_ =? 0) with true by (symmetry; apply Z.eqb_eq; byte_arith).
    f_equal. f_equal; [|f_equal]; apply byte_of_Z_mod; byte_arith.
  - cbn [rfc4648.encode app rfc4648.decode].
    rewrite !dec_enc by byte_arith. rewrite IH.
    f_equal. f_equal; [|f_equal; [|f_equal]];
      apply byte_of_Z_mod; byte_arith.
Qed.

Lemma enc_is_b64_char (v : Z) :
  0 <= v < 64 -> rfc4648.is_b64_char (rfc4648.enc v) = true.
Proof.
  intros Hv. unfold rfc4648.is_b64_char. rewrite dec_enc by exact Hv.
  reflexivity.
Qed.

Lemma encode_chars (bs : list byte) :
  forallb rfc4648.is_b64_char (rfc4648.encode bs) = true.
Proof.
  induction bs as [|a|a b|a b c rest IH] using list_ind3.
  - reflexivity.
  - cbn [rfc4648.encode forallb].
    rewrite !enc_is_b64_char by byte_arith. reflexivity.
  - cbn [rfc4648.encode forallb].
    rewrite !enc_is_b64_char by byte_arith. reflexivity.
  - cbn [rfc4648.encode app forallb].
    rewrite !enc_is_b64_char by byte_arith. rewrite IH. reflexivity.
Qed.

(** Four characters for every group of three bytes, the last group padded:
    the length is [4 * ceil(n / 3)]. *)
Lemma encode_length (bs : list byte) :
  Z.of_nat (length (rfc4648.encode bs))
  = 4 * ((Z.of_nat (length bs) + 2) / 3).
Proof.
  induction bs as [|a|a b|a b c rest IH] using list_ind3.
  - reflexivity.
  - reflexivity.
  - reflexivity.
  - cbn [rfc4648.encode app length].
    rewrite !Nat2Z.inj_succ, IH.
    Z.div_mod_to_equations. lia.
Qed.

Lemma b64_char_ascii (c : byte) :
  rfc4648.is_b64_char c = true -> in_range 0 127 c = true.
Proof.
  unfold rfc4648.is_b64_char, rfc4648.dec, in_range.
  intros H.
  assert (E : byte_val c < 128).
  { destruct ((65 <=? byte_val c) && (byte_val c <=? 90)) eqn:E1; [lia|].
    destruct ((97 <=? byte_val c) && (byte_val c <=? 122)) eqn:E2; [lia|].
    destruct ((48 <=? byte_val c) && (byte_val c <=? 57)) eqn:E3; [lia|].
    destruct (byte_val c =? 43) eqn:E4; [lia|].
    destruct (byte_val c =? 47) eqn:E5; [lia|].
    apply Byte.byte_dec_bl in H. subst c. vm_compute. reflexivity. }
  pose proof (byte_val_range c). lia.
Qed.

Lemma ascii_well_formed (bs : list byte) :
  forallb (in_range 0 127) bs = true -> utf8_well_formed bs = true.
Proof.
  induction bs as [|b bs IH]; intros H; [reflexivity|].
  cbn [forallb] in H. apply andb_true_iff in H. destruct H as [Hb Hbs].
  cbn [utf8_well_formed]. rewrite Hb. apply IH. exact Hbs.
Qed.

Lemma forallb_impl (A : Type) (p q : A -> bool) (l : list A) :
  (forall x, p x = true -> q x = true) ->
  forallb p l = true -> forallb q l = true.
Proof.
  intros Hpq. rewrite !forallb_forall. auto.
Qed.

Lemma b64encode_decodes (bs : list byte) :
  bytes_decode_utf8 (base64.b64encode bs)
  = Ok (string_of_list_byte (rfc4648.encode bs)).
Proof.
  unfold bytes_decode_utf8. rewrite b64encode_rfc.
  rewrite ascii_well_formed; [reflexivity|].
  apply (forallb_impl _ rfc4648.is_b64_char); [apply b64_char_ascii|].
  apply encode_chars.
Qed.

End Base64RoundTrip.

(** ** The image encoder *)

Section ImageEncoderFacts.

Variable Image : Type.
Variable png_encode : Image -> result (list byte).

Lemma BytesIO_write_new (bs : list byte) :
  BytesIO.getvalue (BytesIO.seek (BytesIO.write BytesIO.new bs) 0) = bs.
Proof.
  destruct bs as [|b bs]; [reflexivity|].
  unfold BytesIO.write, BytesIO.new, BytesIO.seek, BytesIO.getvalue.
  cbn [BytesIO.buf BytesIO.pos firstn Nat.sub repeat app].
  rewrite skipn_nil, app_nil_r. reflexivity.
Qed.

Lemma strip_prefix_app (p s : string) :
  strip_prefix p (p ++ s) = Some s.
Proof.
  induction p as [|a p IH]; [reflexivity|].
  cbn [append strip_prefix]. rewrite Ascii.eqb_refl. exact IH.
Qed.

Lemma prefix_app (p s : string) : String.prefix p (p ++ s) = true.
Proof.
  induction p as [|a p IH]; [destruct s; reflexivity|].
  cbn [append String.prefix].
  destruct (ascii_dec a a) as [_|N]; [exact IH | contradiction].
Qed.

(** The value of the encoder on an image that Pillow can write as PNG. *)
Lemma image_to_base64_ok (image : Image) (png : list byte) :
  png_encode image = Ok png ->
  image_to_base64 png_encode image
  = Ok (uri_prefix ++ string_of_list_byte (rfc4648.encode png))%string.
Proof.
  intros H. unfold image_to_base64, Image_save_PNG.
  rewrite H. cbn [bind]. rewrite BytesIO_write_new.
  rewrite b64encode_decodes. reflexivity.
Qed.

(** An image Pillow cannot write as PNG makes the encoder raise what
    [save] raised. *)
Lemma image_to_base64_raise (image : Image) (e : exn) :
  png_encode image = Raise e ->
  image_to_base64 png_encode image = Raise e.
Proof.
  intros H. unfold image_to_base64, Image_save_PNG.
  rewrite H. reflexivity.
Qed.

(** C4.  For an image that serialises to PNG, the data URI starts with the
    literal [data:image/png;base64,] and what follows is the standard
    padded base64 encoding (RFC 4648) of the PNG bytes. *)
Theorem image_uri_format (image : Image) (png : list byte) :
  png_encode image = Ok png ->
  exists uri payload : string,
    image_to_base64 png_encode image = Ok uri /\
    String.prefix "data:image/png;base64," uri = true /\
    uri = ("data:image/png;base64," ++ payload)%string /\
    list_byte_of_string payload = rfc4648.encode png.
Proof.
  intros H.
  exists (uri_prefix ++ string_of_list_byte (rfc4648.encode png))%string.
  exists (string_of_list_byte (rfc4648.encode png)).
  split; [apply image_to_base64_ok; exact H|].
  split; [apply (prefix_app uri_prefix)|].
  split; [reflexivity|].
  apply list_byte_of_string_of_list_byte.
Qed.

End ImageEncoderFacts.

Lemma image_uri_format_witness :
  exists uri payload : string,
    image_to_base64 raw_png_encode [xff; x00; x80] = Ok uri /\
    String.prefix "data:image/png;base64," uri = true /\
    uri = ("data:image/png;base64," ++ payload)%string /\
    list_byte_of_string payload
    = rfc4648.encode (png_signature ++ [xff; x00; x80]).
Proof.
  apply (image_uri_format (list byte) raw_png_encode [xff; x00; x80]).
  reflexivity.
Defined.

(** The data URI of that input. *)
Example image_to_base64_raw :
  image_to_base64 raw_png_encode [xff; x00; x80]
  = Ok "data:image/png;base64,iVBORw0KGgr/AIA="%string.
Proof. vm_compute. reflexivity. Qed.

(** ** The embeddings requests *)

Section NotebookFacts.

Variable Image : Type.
Variable png_encode : Image -> result (list byte).
Variable embeddings_create :
  EmbeddingRequest -> result CreateEmbeddingResponse.

Lemma list_getitem_0 (A : Type) (x : A) (l : list A) :
  list_getitem (x :: l) 0 = Ok x.
Proof.
  unfold list_getitem. cbn [Z.ltb Z.compare].
  replace ((0 <=? 0)%Z && (0 <? Z.of_nat (length (x :: l)))%Z) with true.
  - reflexivity.
  - symmetry. apply andb_true_iff. split.
    + reflexivity.
    + apply Z.ltb_lt. cbn [length]. lia.
Qed.

Lemma list_getitem_0_nil (A : Type) :
  list_getitem (@nil A) 0 = Raise IndexError_list_index_out_of_range.
Proof. reflexivity. Qed.

Lemma first_embedding_cons (r : CreateEmbeddingResponse)
      (d : Embedding) (rest : list Embedding) :
  data r = d :: rest -> first_embedding r = Ok (embedding d).
Proof.
  intros H. unfold first_embedding. rewrite H, list_getitem_0. reflexivity.
Qed.

Lemma bind_Ok (A : Type) (m : result A) : bind m Ok = m.
Proof. destruct m; reflexivity. Qed.

(** C8.  When both responses carry a non-empty result list, the embedding
    taken from each is the [embedding] field of its first element, and the
    similarity the notebook reports is computed from these two alone: the
    other elements of the lists play no part. *)
Theorem notebook_consumes_first
        (image : Image) (uri : string)
        (r1 r2 : CreateEmbeddingResponse)
        (d1 d2 : Embedding) (rest1 rest2 : list Embedding) :
  image_to_base64 png_encode image = Ok uri ->
  embeddings_create (image_request uri) = Ok r1 ->
  data r1 = d1 :: rest1 ->
  embeddings_create text_request = Ok r2 ->
  data r2 = d2 :: rest2 ->
  list_getitem (data r1) 0 = Ok d1 /\
  list_getitem (data r2) 0 = Ok d2 /\
  first_embedding r1 = Ok (embedding d1) /\
  first_embedding r2 = Ok (embedding d2) /\
  notebook png_encode embeddings_create image
  = cosine_similarity (embedding d1) (embedding d2).
Proof.
  intros Huri Hr1 Hd1 Hr2 Hd2.
  split; [rewrite Hd1; apply list_getitem_0|].
  split; [rewrite Hd2; apply list_getitem_0|].
  split; [apply (first_embedding_cons r1 d1 rest1 Hd1)|].
  split; [apply (first_embedding_cons r2 d2 rest2 Hd2)|].
  unfold notebook. rewrite Huri. cbn [bind]. rewrite Hr1. cbn [bind].
  rewrite (first_embedding_cons r1 d1 rest1 Hd1). cbn [bind].
  rewrite Hr2. cbn [bind].
  rewrite (first_embedding_cons r2 d2 rest2 Hd2). cbn [bind].
  apply bind_Ok.
Qed.

(** With an empty result list [.data[0]] raises and the notebook stops. *)
Lemma first_embedding_nil (r : CreateEmbeddingResponse) :
  data r = [] ->
  first_embedding r = Raise IndexError_list_index_out_of_range.
Proof.
  intros H. unfold first_embedding. rewrite H. reflexivity.
Qed.

End NotebookFacts.

Lemma notebook_consumes_first_witness :
  notebook raw_png_encode two_result_endpoint [xff; x00; x80]
  = cosine_similarity [1; 0]%R [1; 0]%R.
Proof.
  set (uri := "data:image/png;base64,iVBORw0KGgr/AIA="%string).
  set (d1 := {| embedding := [1; 0]%R; index := 0 |}).
  set (d2 := {| embedding := [0; 1]%R; index := 1 |}).
  apply (notebook_consumes_first (list byte) raw_png_encode
           two_result_endpoint [xff; x00; x80] uri
           (mk_Response [d1; d2] model_name) (mk_Response [d1; d2] model_name)
           d1 d1 [d2] [d2]).
  - vm_compute. reflexivity.
  - reflexivity.
  - reflexivity.
  - reflexivity.
  - reflexivity.
Defined.

(** ** The scorer *)


Section Scorer.

Local Open Scope R_scope.

(** The loop with an arbitrary start value is the start value plus the loop
    from zero. *)
Lemma ddot_loop_acc (l : list (R * R)) (acc : R) :
  fold_left np.ddot_step l acc = acc + fold_left np.ddot_step l 0.
Proof.
  revert acc. induction l as [|p l IH]; intros acc; simpl.
  - lra.
  - rewrite (IH (np.ddot_step acc p)), (IH (np.ddot_step 0 p)).
    unfold np.ddot_step. lra.
Qed.

Lemma ddot_nil_l (y : list R) : np.ddot [] y = 0.
Proof. reflexivity. Qed.

Lemma ddot_nil_r (x : list R) : np.ddot x [] = 0.
Proof. destruct x; reflexivity. Qed.

Lemma ddot_cons (a b : R) (x y : list R) :
  np.ddot (a :: x) (b :: y) = a * b + np.ddot x y.
Proof.
  unfold np.ddot. simpl.
  rewrite ddot_loop_acc. unfold np.ddot_step at 1. simpl. lra.
Qed.

Lemma ddot_comm (x y : list R) : np.ddot x y = np.ddot y x.
Proof.
  revert y. induction x as [|a x IH]; intros [|b y].
  - reflexivity.
  - reflexivity.
  - reflexivity.
  - rewrite !ddot_cons, IH. lra.
Qed.

Lemma ddot_scale_l (c : R) (x y : list R) :
  np.ddot (np.scale c x) y = c * np.ddot x y.
Proof.
  revert y. induction x as [|a x IH]; intros [|b y]; simpl.
  - rewrite ddot_nil_l. lra.
  - rewrite ddot_nil_l. lra.
  - rewrite !ddot_nil_r. lra.
  - rewrite !ddot_cons, IH. lra.
Qed.

Lemma ddot_self (v : list R) : np.ddot v v = sum_sq v.
Proof.
  induction v as [|a v IH]; [reflexivity|].
  rewrite ddot_cons, IH. reflexivity.
Qed.

Lemma cosine_similarity_eq_len (a b : list R) :
  length a = length b -> cosine_similarity a b = Ok (np.ddot a b).
Proof.
  intros H. unfold cosine_similarity, np.dot, np.array. simpl.
  rewrite H, Nat.eqb_refl. reflexivity.
Qed.

Lemma sum_sq_nonneg (v : list R) : 0 <= sum_sq v.
Proof.
  induction v as [|a v IH]; simpl; [lra|]. nra.
Qed.

Lemma unit_norm_sum_sq (v : list R) : unit_norm v <-> sum_sq v = 1.
Proof.
  unfold unit_norm, l2_norm. split; intros H.
  - rewrite <- (sqrt_sqrt (sum_sq v)) by apply sum_sq_nonneg.
    rewrite H. lra.
  - rewrite H. apply sqrt_1.
Qed.

(** The two expansions behind the Cauchy-Schwarz bound, for vectors of the
    same length. *)
Lemma ddot_bounds (x y : list R) :
  length x = length y ->
  2 * np.ddot x y <= sum_sq x + sum_sq y /\
  - (sum_sq x + sum_sq y) <= 2 * np.ddot x y.
Proof.
  revert y. induction x as [|a x IH]; intros [|b y] Hlen;
    try discriminate Hlen.
  - rewrite ddot_nil_l. simpl. lra.
  - rewrite ddot_cons. simpl.
    destruct (IH y) as [H1 H2]; [simpl in Hlen; congruence|].
    pose proof (Rle_0_sqr (a - b)) as Hm.
    pose proof (Rle_0_sqr (a + b)) as Hp.
    unfold Rsqr in Hm, Hp. split; lra.
Qed.

End Scorer.

Section ScorerClaims.

Local Open Scope R_scope.

(** C2.  When the two lengths differ the scorer raises and returns no value.
  The exception is numpy's [ValueError] for shapes that are not aligned,
  which is the dimension-mismatch error of the specification. *)
Theorem score_length_mismatch (a b : list R) :
length a <> length b ->
cosine_similarity a b
= Raise (ValueError_shapes_not_aligned (length a) (length b)) /\
(forall s, cosine_similarity a b <> Ok s).
Proof.
intros H.
assert (E : cosine_similarity a b
            = Raise (ValueError_shapes_not_aligned (length a) (length b))).
{ unfold cosine_similarity, np.dot, np.array. simpl.
  destruct (Nat.eqb_spec (length a) (length b)) as [Heq|Hne].
  - contradiction.
  - reflexivity. }
split; [exact E|]. intros s Hs. rewrite E in Hs. discriminate Hs.
Qed.

Lemma score_length_mismatch_witness :
length [1; 2] <> length [1; 2; 3] /\
cosine_similarity [1; 2] [1; 2; 3]
= Raise (ValueError_shapes_not_aligned 2 3).
Proof.
assert (H : length [1; 2] <> length [1; 2; 3]) by (simpl; lia).
split; [exact H|].
exact (proj1 (score_length_mismatch [1; 2] [1; 2; 3] H)).
Defined.





(** C9.  On two empty vectors the scorer returns 0, the empty sum, and does
  not raise. *)
Theorem score_empty : cosine_similarity [] [] = Ok 0.
Proof. reflexivity. Qed.



(** No normalisation takes place: the score of a vector of norm 2 with itself
  is 4, outside the range of a cosine. *)
Example score_not_normalised : cosine_similarity [2; 0] [2; 0] = Ok 4.
Proof.
rewrite cosine_similarity_eq_len by reflexivity.
rewrite ddot_self. simpl. f_equal. lra.
Qed.

End ScorerClaims.

(** ** More on the image encoder *)

Section ImageEncoderMore.

Variable Image : Type.
Variable png_encode : Image -> result (list byte).

Lemma Ok_inj (A : Type) (x y : A) : Ok x = Ok y -> x = y.
Proof. intros H. congruence. Qed.

Lemma list_byte_of_string_app (s1 s2 : string) :
  list_byte_of_string (s1 ++ s2)
  = list_byte_of_string s1 ++ list_byte_of_string s2.
Proof.
  induction s1 as [|a s1 IH]; [reflexivity|].
  cbn [append]. change (list_byte_of_string (String a (s1 ++ s2)))
    with (byte_of_ascii a :: list_byte_of_string (s1 ++ s2)).
  rewrite IH. reflexivity.
Qed.

Lemma length_string_of_list_byte (l : list byte) :
  String.length (string_of_list_byte l) = length l.
Proof.
  induction l as [|b l IH]; [reflexivity|].
  change (string_of_list_byte (b :: l))
    with (String (ascii_of_byte b) (string_of_list_byte l)).
  cbn [String.length length]. rewrite IH. reflexivity.
Qed.

Lemma length_append (s1 s2 : string) :
  String.length (s1 ++ s2) = String.length s1 + String.length s2.
Proof.
  induction s1 as [|a s1 IH]; [reflexivity|].
  cbn [append String.length]. rewrite IH. reflexivity.
Qed.

(** The encoder returns exactly when Pillow returns. *)
Lemma image_to_base64_inv (image : Image) (uri : string) :
  image_to_base64 png_encode image = Ok uri ->
  exists png, png_encode image = Ok png /\
              uri = (uri_prefix
                     ++ string_of_list_byte (rfc4648.encode png))%string.
Proof.
  intros H. destruct (png_encode image) as [png|e] eqn:E.
  - exists png. split; [reflexivity|].
    rewrite (image_to_base64_ok Image png_encode image png E) in H.
    apply Ok_inj in H. symmetry. exact H.
  - rewrite (image_to_base64_raise Image png_encode image e E) in H.
    discriminate H.
Qed.

Lemma b64_char_json_plain (c : byte) :
  rfc4648.is_b64_char c = true -> json_plain c = true.
Proof.
  unfold rfc4648.is_b64_char, rfc4648.dec, json_plain, in_range.
  intros H. pose proof (byte_val_range c) as Hr.
  destruct ((65 <=? byte_val c) && (byte_val c <=? 90))%Z eqn:E1;
    [apply andb_true_iff in E1; lia|].
  destruct ((97 <=? byte_val c) && (byte_val c <=? 122))%Z eqn:E2;
    [apply andb_true_iff in E2; lia|].
  destruct ((48 <=? byte_val c) && (byte_val c <=? 57))%Z eqn:E3;
    [apply andb_true_iff in E3; lia|].
  destruct (byte_val c =? 43)%Z eqn:E4; [lia|].
  destruct (byte_val c =? 47)%Z eqn:E5; [lia|].
  apply Byte.byte_dec_bl in H. subst c. vm_compute. reflexivity.
Qed.

(** X4.  The encoder raises exactly what [image.save] raises, and only then:
    the base64 text always decodes as UTF-8, so the encoder adds no failure
    of its own. *)
Theorem image_to_base64_raises_iff (image : Image) (e : exn) :
  image_to_base64 png_encode image = Raise e <-> png_encode image = Raise e.
Proof.
  split.
  - intros H. destruct (png_encode image) as [png|e'] eqn:E.
    + rewrite (image_to_base64_ok Image png_encode image png E) in H.
      discriminate H.
    + rewrite (image_to_base64_raise Image png_encode image e' E) in H.
      injection H as ->. reflexivity.
  - apply image_to_base64_raise.
Qed.

(** X5.  Every character of a data URI the encoder returns is an ASCII
    character that stands for itself in a JSON string: no quotation mark, no
    reverse solidus, no control character. *)
Theorem image_uri_json_plain (image : Image) (uri : string) :
  image_to_base64 png_encode image = Ok uri ->
  forallb json_plain (list_byte_of_string uri) = true.
Proof.
  intros H. destruct (image_to_base64_inv image uri H) as [png [_ ->]].
  rewrite list_byte_of_string_app, forallb_app.
  apply andb_true_iff. split; [vm_compute; reflexivity|].
  rewrite list_byte_of_string_of_list_byte.
  apply (forallb_impl _ rfc4648.is_b64_char);
    [apply b64_char_json_plain | apply encode_chars].
Qed.

(** X6.  The length of the data URI: the 22 characters of the prefix and
    four characters for every three bytes of PNG, the last group counted
    whole. *)
Theorem image_uri_length (image : Image) (png : list byte) (uri : string) :
  png_encode image = Ok png ->
  image_to_base64 png_encode image = Ok uri ->
  Z.of_nat (String.length uri)
  = (22 + 4 * ((Z.of_nat (length png) + 2) / 3))%Z.
Proof.
  intros E H.
  rewrite (image_to_base64_ok Image png_encode image png E) in H.
  apply Ok_inj in H. subst uri.
  rewrite length_append, length_string_of_list_byte, Nat2Z.inj_add.
  rewrite encode_length. reflexivity.
Qed.

(** X7.  Two images whose PNG serialisations differ get different data URIs:
    the encoder loses nothing of what Pillow wrote. *)
Theorem image_uri_injective (image1 image2 : Image) (png1 png2 : list byte) :
  png_encode image1 = Ok png1 ->
  png_encode image2 = Ok png2 ->
  png1 <> png2 ->
  image_to_base64 png_encode image1 <> image_to_base64 png_encode image2.
Proof.
  intros E1 E2 Hne H. apply Hne.
  rewrite (image_to_base64_ok Image png_encode image1 png1 E1) in H.
  rewrite (image_to_base64_ok Image png_encode image2 png2 E2) in H.
  apply Ok_inj in H.
  apply (f_equal (strip_prefix uri_prefix)) in H.
  rewrite !strip_prefix_app in H. injection H as H.
  apply (f_equal list_byte_of_string) in H.
  rewrite !list_byte_of_string_of_list_byte in H.
  apply (f_equal rfc4648.decode) in H.
  rewrite !decode_encode in H. injection H as H. exact H.
Qed.

End ImageEncoderMore.

Section Base64Padding.

Lemma enc_is_b64_digit (v : Z) :
  (0 <= v < 64)%Z -> is_b64_digit (rfc4648.enc v) = true.
Proof.
  intros Hv. unfold is_b64_digit. rewrite dec_enc by exact Hv. reflexivity.
Qed.

Lemma pad_count_add3 (n : nat) : pad_count (S (S (S n))) = pad_count n.
Proof.
  unfold pad_count. replace (S (S (S n))) with (n + 1 * 3) by lia.
  rewrite Nat.Div0.mod_add. reflexivity.
Qed.

Ltac sextet_range :=
  repeat match goal with
         | |- context [byte_val ?b] =>
             pose proof (byte_val_range b); generalize dependent (byte_val b)
         end;
  intros; Z.div_mod_to_equations; lia.

(** X8.  The text [base64.b64encode] returns is a run of base64 digits
    followed by nothing but padding: no [=] for a length that is a multiple
    of three, two for a remainder of one, one for a remainder of two. *)
Theorem b64encode_padding (bs : list byte) :
  exists digits : list byte,
    base64.b64encode bs
    = digits ++ repeat binascii.BASE64_PAD (pad_count (length bs)) /\
    forallb is_b64_digit digits = true.
Proof.
  rewrite b64encode_rfc.
  induction bs as [|a|a b|a b c rest IH] using list_ind3.
  - exists []. split; reflexivity.
  - eexists [_; _]. split; [reflexivity|].
    cbn [forallb]. rewrite !enc_is_b64_digit by sextet_range. reflexivity.
  - eexists [_; _; _]. split; [reflexivity|].
    cbn [forallb]. rewrite !enc_is_b64_digit by sextet_range. reflexivity.
  - destruct IH as [digits [E F]].
    eexists (_ :: _ :: _ :: _ :: digits). split.
    + cbn [rfc4648.encode app length]. rewrite E, pad_count_add3.
      reflexivity.
    + cbn [forallb]. rewrite !enc_is_b64_digit by sextet_range.
      rewrite F. reflexivity.
Qed.

End Base64Padding.

Lemma image_uri_json_plain_witness :
  forallb json_plain
    (list_byte_of_string "data:image/png;base64,iVBORw0KGgr/AIA=") = true.
Proof.
  apply (image_uri_json_plain (list byte) raw_png_encode [xff; x00; x80]).
  vm_compute. reflexivity.
Defined.

Lemma image_uri_length_witness :
  Z.of_nat (String.length "data:image/png;base64,iVBORw0KGgr/AIA=")
  = (22 + 4 * ((Z.of_nat (length (png_signature ++ [xff; x00; x80])) + 2) / 3))%Z.
Proof.
  apply (image_uri_length (list byte) raw_png_encode [xff; x00; x80]).
  - reflexivity.
  - vm_compute. reflexivity.
Defined.

Lemma image_uri_injective_witness :
  image_to_base64 raw_png_encode [xff; x00; x80]
  <> image_to_base64 raw_png_encode [xff; x00; x81].
Proof.
  apply (image_uri_injective (list byte) raw_png_encode
           [xff; x00; x80] [xff; x00; x81]
           (png_signature ++ [xff; x00; x80])
           (png_signature ++ [xff; x00; x81])).
  - reflexivity.
  - reflexivity.
  - intros H. discriminate H.
Defined.

(** ** The run of the notebook *)

Section NotebookRun.

Variable Image : Type.
Variable Image_open : string -> result Image.
Variable png_encode : Image -> result (list byte).
Variable embeddings_create :
  EmbeddingRequest -> result CreateEmbeddingResponse.

Lemma cosine_similarity_neq_len (a b : list R) :
  length a <> length b ->
  cosine_similarity a b
  = Raise (ValueError_shapes_not_aligned (length a) (length b)).
Proof.
  intros H. unfold cosine_similarity, np.dot, np.array. simpl.
  destruct (Nat.eqb_spec (length a) (length b)) as [Heq|_];
    [contradiction | reflexivity].
Qed.

Lemma cosine_similarity_Ok_inv (a b : list R) (s : R) :
  cosine_similarity a b = Ok s -> length a = length b.
Proof.
  intros H. destruct (Nat.eq_dec (length a) (length b)) as [E|NE].
  - exact E.
  - rewrite (cosine_similarity_neq_len a b NE) in H. discriminate H.
Qed.

(** The recorded run returns what the notebook returns. *)
Lemma notebook_requests_result (image : Image) :
  snd (notebook_requests png_encode embeddings_create image)
  = notebook png_encode embeddings_create image.
Proof.
  unfold notebook_requests, notebook, create, quiet.
  destruct (image_to_base64 png_encode image) as [uri|e]; [|reflexivity].
  cbn [bind bind_sent].
  destruct (embeddings_create (image_request uri)) as [r1|e]; [|reflexivity].
  cbn [bind bind_sent].
  destruct (first_embedding r1) as [e1|e]; [|reflexivity].
  cbn [bind bind_sent].
  destruct (embeddings_create text_request) as [r2|e]; [|reflexivity].
  cbn [bind bind_sent].
  destruct (first_embedding r2) as [e2|e]; [|reflexivity].
  cbn [bind bind_sent].
  destruct (cosine_similarity e1 e2) as [s|e]; reflexivity.
Qed.

(** The run up to and including the first embedding. *)
Lemma notebook_requests_first_fails (image : Image) (uri : string) (e : exn) :
  image_to_base64 png_encode image = Ok uri ->
  (r <- embeddings_create (image_request uri) ;; first_embedding r) = Raise e ->
  notebook_requests png_encode embeddings_create image
  = ([image_request uri], Raise e).
Proof.
  intros Huri H. unfold notebook_requests, create, quiet.
  rewrite Huri. cbn [bind_sent].
  destruct (embeddings_create (image_request uri)) as [r1|e1].
  - cbn [bind] in H. cbn [bind_sent]. rewrite H. reflexivity.
  - cbn [bind] in H. injection H as ->. reflexivity.
Qed.

Lemma notebook_requests_both (image : Image) (uri : string)
      (r1 : CreateEmbeddingResponse) (e1 : list R) :
  image_to_base64 png_encode image = Ok uri ->
  embeddings_create (image_request uri) = Ok r1 ->
  first_embedding r1 = Ok e1 ->
  notebook_requests png_encode embeddings_create image
  = ([image_request uri; text_request],
     r2 <- embeddings_create text_request ;;
     e2 <- first_embedding r2 ;;
     cosine_similarity e1 e2).
Proof.
  intros Huri Hr1 He1. unfold notebook_requests, create, quiet.
  rewrite Huri. cbn [bind_sent]. rewrite Hr1. cbn [bind_sent].
  rewrite He1. cbn [bind_sent].
  destruct (embeddings_create text_request) as [r2|e]; [|reflexivity].
  cbn [bind bind_sent].
  destruct (first_embedding r2) as [e2|e]; [|reflexivity].
  cbn [bind bind_sent].
  destruct (cosine_similarity e1 e2) as [s|e]; reflexivity.
Qed.

(** X9.  The requests of a whole run.  When the image file does not open,
    or the image cannot be encoded, the run raises that exception and no
    request has been sent.  Otherwise the request with the image is sent
    first, and after it at most one more, the text request. *)
Theorem run_all_requests :
  match Image_open image_path with
  | Raise e => run_all Image_open png_encode embeddings_create = ([], Raise e)
  | Ok image =>
      match image_to_base64 png_encode image with
      | Raise e =>
          run_all Image_open png_encode embeddings_create = ([], Raise e)
      | Ok uri =>
          fst (run_all Image_open png_encode embeddings_create)
          = [image_request uri] \/
          fst (run_all Image_open png_encode embeddings_create)
          = [image_request uri; text_request]
      end
  end.
Proof.
  unfold run_all, quiet.
  destruct (Image_open image_path) as [image|e] eqn:Hopen; [|reflexivity].
  cbn [bind_sent].
  destruct (notebook_requests png_encode embeddings_create image)
    as [log r] eqn:Hrun.
  cbn [app fst].
  destruct (image_to_base64 png_encode image) as [uri|e] eqn:Huri.
  - destruct (r1 <- embeddings_create (image_request uri) ;;
              first_embedding r1) as [e1|e] eqn:Hfirst.
    + right.
      destruct (embeddings_create (image_request uri)) as [r1|e0] eqn:Hr1;
        [|discriminate Hfirst].
      cbn [bind] in Hfirst.
      rewrite (notebook_requests_both image uri r1 e1 Huri Hr1 Hfirst) in Hrun.
      injection Hrun as <- _. reflexivity.
    + left.
      rewrite (notebook_requests_first_fails image uri e Huri Hfirst) in Hrun.
      injection Hrun as <- _. reflexivity.
  - unfold notebook_requests, quiet in Hrun. rewrite Huri in Hrun.
    cbn [bind_sent] in Hrun. injection Hrun as <- <-. reflexivity.
Qed.

(** X10.  When the request with the image raises, or its result list is
    empty, the run stops with that exception and the text request is never
    sent. *)
Theorem text_request_not_sent (image : Image) (uri : string) (e : exn) :
  image_to_base64 png_encode image = Ok uri ->
  (r <- embeddings_create (image_request uri) ;; first_embedding r) = Raise e ->
  notebook_requests png_encode embeddings_create image
  = ([image_request uri], Raise e) /\
  notebook png_encode embeddings_create image = Raise e.
Proof.
  intros Huri H.
  pose proof (notebook_requests_first_fails image uri e Huri H) as E.
  split; [exact E|].
  rewrite <- notebook_requests_result, E. reflexivity.
Qed.

(** X11.  The notebook prints a similarity exactly when every step
    returned: the image was encoded, both requests were answered with a
    non-empty result list, and the two first embeddings have the same
    length; the similarity is then what the scorer returns for those two
    embeddings. *)
Theorem notebook_Ok_iff (image : Image) (s : R) :
  notebook png_encode embeddings_create image = Ok s <->
  exists (uri : string) (r1 r2 : CreateEmbeddingResponse)
         (d1 d2 : Embedding) (rest1 rest2 : list Embedding),
    image_to_base64 png_encode image = Ok uri /\
    embeddings_create (image_request uri) = Ok r1 /\
    data r1 = d1 :: rest1 /\
    embeddings_create text_request = Ok r2 /\
    data r2 = d2 :: rest2 /\
    length (embedding d1) = length (embedding d2) /\
    cosine_similarity (embedding d1) (embedding d2) = Ok s.
Proof.
  split.
  - unfold notebook. intros H.
    destruct (image_to_base64 png_encode image) as [uri|e]; [|discriminate H].
    cbn [bind] in H.
    destruct (embeddings_create (image_request uri)) as [r1|e] eqn:Hr1;
      [|discriminate H].
    cbn [bind] in H.
    destruct (data r1) as [|d1 rest1] eqn:Hd1.
    { rewrite (first_embedding_nil r1 Hd1) in H. discriminate H. }
    rewrite (first_embedding_cons r1 d1 rest1 Hd1) in H. cbn [bind] in H.
    destruct (embeddings_create text_request) as [r2|e] eqn:Hr2;
      [|discriminate H].
    cbn [bind] in H.
    destruct (data r2) as [|d2 rest2] eqn:Hd2.
    { rewrite (first_embedding_nil r2 Hd2) in H. discriminate H. }
    rewrite (first_embedding_cons r2 d2 rest2 Hd2) in H. cbn [bind] in H.
    rewrite bind_Ok in H.
    pose proof (cosine_similarity_Ok_inv _ _ _ H) as Hlen.
    exists uri, r1, r2, d1, d2, rest1, rest2. repeat split; assumption.
  - intros [uri [r1 [r2 [d1 [d2 [rest1 [rest2 H]]]]]]].
    destruct H as [Huri [Hr1 [Hd1 [Hr2 [Hd2 [Hlen Hs]]]]]].
    unfold notebook. rewrite Huri. cbn [bind]. rewrite Hr1. cbn [bind].
    rewrite (first_embedding_cons r1 d1 rest1 Hd1). cbn [bind].
    rewrite Hr2. cbn [bind].
    rewrite (first_embedding_cons r2 d2 rest2 Hd2). cbn [bind].
    rewrite bind_Ok. exact Hs.
Qed.

(** X12.  When the two first embeddings differ in length, both requests have
    been sent and the run ends in numpy's [ValueError] with the two
    lengths. *)
Theorem notebook_dimension_mismatch
        (image : Image) (uri : string)
        (r1 r2 : CreateEmbeddingResponse)
        (d1 d2 : Embedding) (rest1 rest2 : list Embedding) :
  image_to_base64 png_encode image = Ok uri ->
  embeddings_create (image_request uri) = Ok r1 ->
  data r1 = d1 :: rest1 ->
  embeddings_create text_request = Ok r2 ->
  data r2 = d2 :: rest2 ->
  length (embedding d1) <> length (embedding d2) ->
  notebook_requests png_encode embeddings_create image
  = ([image_request uri; text_request],
     Raise (ValueError_shapes_not_aligned
              (length (embedding d1)) (length (embedding d2)))).
Proof.
  intros Huri Hr1 Hd1 Hr2 Hd2 Hne.
  rewrite (notebook_requests_both image uri r1 (embedding d1) Huri Hr1
             (first_embedding_cons r1 d1 rest1 Hd1)).
  rewrite Hr2. cbn [bind].
  rewrite (first_embedding_cons r2 d2 rest2 Hd2). cbn [bind].
  rewrite (cosine_similarity_neq_len _ _ Hne). reflexivity.
Qed.

(** X13.  Whenever the image serialises to PNG, the first request sent is the
    one for the prompt, and its [image_url] is a data URI that decodes back
    to exactly the PNG bytes of the image. *)
Theorem image_request_carries_png (image : Image) (png : list byte) :
  png_encode image = Ok png ->
  exists (uri payload : string) (later : list EmbeddingRequest),
    fst (notebook_requests png_encode embeddings_create image)
    = {| input := [prompt]; model := model_name;
         extra_body := [("image_url"%string, uri)] |} :: later /\
    strip_prefix "data:image/png;base64," uri = Some payload /\
    rfc4648.decode (list_byte_of_string payload) = Some png.
Proof.
  intros Hpng.
  pose proof (image_to_base64_ok Image png_encode image png Hpng) as Huri.
  set (payload := string_of_list_byte (rfc4648.encode png)) in *.
  exists (uri_prefix ++ payload)%string, payload.
  assert (Hlog : exists later,
             fst (notebook_requests png_encode embeddings_create image)
             = image_request (uri_prefix ++ payload) :: later).
  { destruct (r1 <- embeddings_create (image_request (uri_prefix ++ payload)) ;;
              first_embedding r1) as [e1|e] eqn:Hfirst.
    - destruct (embeddings_create (image_request (uri_prefix ++ payload)))
        as [r1|e0] eqn:Hr1; [|discriminate Hfirst].
      cbn [bind] in Hfirst.
      rewrite (notebook_requests_both image _ r1 e1 Huri Hr1 Hfirst).
      exists [text_request]. reflexivity.
    - rewrite (notebook_requests_first_fails image _ e Huri Hfirst).
      exists []. reflexivity. }
  destruct Hlog as [later Hlog]. exists later.
  split; [exact Hlog|].
  split; [apply (strip_prefix_app uri_prefix)|].
  unfold payload. rewrite list_byte_of_string_of_list_byte.
  apply decode_encode.
Qed.

End NotebookRun.

(** X14.  [.data[0].embedding] raises exactly when the result list is empty,
    and what it raises is [IndexError]. *)
Theorem first_embedding_raises_iff (r : CreateEmbeddingResponse) (e : exn) :
  first_embedding r = Raise e <->
  data r = [] /\ e = IndexError_list_index_out_of_range.
Proof.
  split.
  - intros H. destruct (data r) as [|d rest] eqn:Hd.
    + rewrite (first_embedding_nil r Hd) in H. injection H as <-.
      split; reflexivity.
    + rewrite (first_embedding_cons r d rest Hd) in H. discriminate H.
  - intros [Hd ->]. apply first_embedding_nil. exact Hd.
Qed.

Lemma text_request_not_sent_witness :
  notebook_requests raw_png_encode empty_endpoint [xff; x00; x80]
  = ([image_request "data:image/png;base64,iVBORw0KGgr/AIA="],
     Raise IndexError_list_index_out_of_range) /\
  notebook raw_png_encode empty_endpoint [xff; x00; x80]
  = Raise IndexError_list_index_out_of_range.
Proof.
  apply (text_request_not_sent (list byte) raw_png_encode empty_endpoint
           [xff; x00; x80] "data:image/png;base64,iVBORw0KGgr/AIA="
           IndexError_list_index_out_of_range).
  - vm_compute. reflexivity.
  - reflexivity.
Defined.

Lemma notebook_dimension_mismatch_witness :
  notebook_requests raw_png_encode uneven_endpoint [xff; x00; x80]
  = ([image_request "data:image/png;base64,iVBORw0KGgr/AIA="; text_request],
     Raise (ValueError_shapes_not_aligned 2 3)).
Proof.
  apply (notebook_dimension_mismatch (list byte) raw_png_encode
           uneven_endpoint [xff; x00; x80]
           "data:image/png;base64,iVBORw0KGgr/AIA="
           (mk_Response [mk_Embedding [1; 0]%R 0] model_name)
           (mk_Response [mk_Embedding [1; 0; 0]%R 0] model_name)
           (mk_Embedding [1; 0]%R 0) (mk_Embedding [1; 0; 0]%R 0) [] []).
  - vm_compute. reflexivity.
  - reflexivity.
  - reflexivity.
  - reflexivity.
  - reflexivity.
  - simpl. lia.
Defined.

Lemma image_request_carries_png_witness :
  exists (uri payload : string) (later : list EmbeddingRequest),
    fst (notebook_requests raw_png_encode two_result_endpoint
           [xff; x00; x80])
    = {| input := [prompt]; model := model_name;
         extra_body := [("image_url"%string, uri)] |} :: later /\
    strip_prefix "data:image/png;base64," uri = Some payload /\
    rfc4648.decode (list_byte_of_string payload)
    = Some (png_signature ++ [xff; x00; x80]).
Proof.
  apply (image_request_carries_png (list byte) raw_png_encode
           two_result_endpoint [xff; x00; x80]).
  reflexivity.
Defined.

(** The whole run on the instance: both requests, and the similarity of the
    first results. *)
Example run_all_instance :
  fst (run_all one_image_open raw_png_encode two_result_endpoint)
  = [image_request "data:image/png;base64,iVBORw0KGgr/AIA="; text_request].
Proof. vm_compute. reflexivity. Qed.

(** ** The scorer in binary64 *)

Section Float64Scorer.

Local Abbreviation float64 := Float64.float64.
Local Abbreviation zero := Float64.zero.
Local Abbreviation one := Float64.one.
Local Abbreviation add := Float64.add.
Local Abbreviation mul := Float64.mul.
Local Abbreviation eqb := Float64.eqb.
Local Abbreviation ltb := Float64.ltb.
Local Abbreviation is_nan := Float64.is_nan.
Local Abbreviation valid := Float64.valid.
Local Abbreviation of_Z := Float64.of_Z.
Local Abbreviation to_R := Float64.to_R.
Local Abbreviation dot_step := Float64.dot_step.
Local Abbreviation DOUBLE_dot := Float64.DOUBLE_dot.
Local Abbreviation scale := Float64.scale.

Lemma mul_comm (x y : float64) : mul x y = mul y x.
Proof.
  unfold Float64.mul.
  destruct x as [sx|sx| |sx mx ex], y as [sy|sy| |sy my ey];
    cbn [SFmul]; try reflexivity; try (rewrite xorb_comm; reflexivity).
  rewrite xorb_comm, Pos.mul_comm, Z.add_comm. reflexivity.
Qed.

Lemma dot_loop_comm (x y : list float64) (tmp : float64) :
  fold_left dot_step (combine x y) tmp = fold_left dot_step (combine y x) tmp.
Proof.
  revert y tmp. induction x as [|a x IH]; intros [|b y] tmp;
    try reflexivity.
  cbn [combine fold_left]. unfold Float64.dot_step at 2 4. cbn [fst snd].
  rewrite (mul_comm a b). apply IH.
Qed.

Lemma DOUBLE_dot_comm (x y : list float64) : DOUBLE_dot x y = DOUBLE_dot y x.
Proof. apply dot_loop_comm. Qed.

(** [x == x] fails for NaN and only for NaN. *)
Lemma eqb_same (x : float64) : eqb x x = negb (is_nan x).
Proof.
  unfold Float64.eqb, SFeqb.
  destruct x as [s|s| |s m e]; cbn [SFcompare Float64.is_nan negb].
  - reflexivity.
  - destruct s; reflexivity.
  - reflexivity.
  - rewrite Z.compare_refl, Pos.compare_cont_refl. destruct s; reflexivity.
Qed.

Lemma float64_cosine_similarity_eq_len (a b : list float64) :
  length a = length b ->
  Float64.cosine_similarity a b = Ok (DOUBLE_dot a b).
Proof.
  intros H. unfold Float64.cosine_similarity, Float64.dot, Float64.array.
  cbn [Float64.shape0 Float64.data]. rewrite H, Nat.eqb_refl. reflexivity.
Qed.

Lemma float64_cosine_similarity_neq_len (a b : list float64) :
  length a <> length b ->
  Float64.cosine_similarity a b
  = Raise (ValueError_shapes_not_aligned (length a) (length b)).
Proof.
  intros H. unfold Float64.cosine_similarity, Float64.dot, Float64.array.
  cbn [Float64.shape0 Float64.data].
  destruct (Nat.eqb_spec (length a) (length b)) as [E|_];
    [contradiction | reflexivity].
Qed.

Lemma index_sum_ext64 (f g : nat -> float64) (n : nat) :
  (forall i, (i < n)%nat -> f i = g i) ->
  Float64.index_sum f n = Float64.index_sum g n.
Proof.
  induction n as [|n IH]; intros H; [reflexivity|].
  cbn [Float64.index_sum]. rewrite IH, (H n) by auto with arith.
  reflexivity.
Qed.

(** The loop over a list is the sum over its indices, in the same order. *)
Lemma dot_loop_index_sum (l : list (float64 * float64)) :
  fold_left dot_step l zero
  = Float64.index_sum
      (fun i => mul (fst (nth i l (zero, zero))) (snd (nth i l (zero, zero))))
      (length l).
Proof.
  induction l as [|p l IH] using rev_ind; [reflexivity|].
  rewrite fold_left_app, length_app, Nat.add_comm.
  cbn [length plus fold_left Float64.index_sum].
  rewrite app_nth2, Nat.sub_diag by auto with arith. cbn [nth].
  unfold Float64.dot_step at 1. f_equal. rewrite IH.
  apply index_sum_ext64. intros i Hi.
  rewrite app_nth1 by exact Hi. reflexivity.
Qed.



(** On that input, [1.5 * 2 + 0.25 * 4 = 4]. *)
Example float64_score_1_5_0_25 :
  Float64.cosine_similarity [of_Z 3 (-1); of_Z 1 (-2)] [of_Z 1 1; of_Z 1 2]
  = Ok (of_Z 4 0).
Proof. vm_compute. reflexivity. Qed.





Lemma sum_sq_map_Q2R (qs : list Q) :
  sum_sq (map Q2R qs)
  = Q2R (fold_right (fun q acc => (q * q + acc)%Q) 0%Q qs).
Proof.
  induction qs as [|q qs IH].
  - cbn [map sum_sq fold_right]. unfold Q2R. cbn. lra.
  - cbn [map sum_sq fold_right]. rewrite IH, Q2R_plus, Q2R_mult.
    reflexivity.
Qed.



End Float64Scorer.

(** ** More on the scorer in binary64 *)

Section Float64ScorerMore.

Local Abbreviation float64 := Float64.float64.
Local Abbreviation zero := Float64.zero.
Local Abbreviation add := Float64.add.
Local Abbreviation mul := Float64.mul.
Local Abbreviation ltb := Float64.ltb.
Local Abbreviation of_Z := Float64.of_Z.
Local Abbreviation dot_step := Float64.dot_step.

Lemma round_aux_sign_clear (m e : Z) (l : location) :
  sign_clear (binary_round_aux Float64.prec Float64.emax false m e l).
Proof.
  unfold binary_round_aux.
  destruct (shr_fexp Float64.prec Float64.emax m e l) as [mrs1 e1].
  destruct (shr_fexp Float64.prec Float64.emax
              (round_nearest_even (shr_m mrs1) (loc_of_shr_record mrs1))
              e1 loc_Exact) as [mrs2 e2].
  destruct (shr_m mrs2) as [|p|p].
  - reflexivity.
  - destruct (Z.leb e2 (Z.sub Float64.emax Float64.prec)); reflexivity.
  - exact I.
Qed.

Lemma mul_self_sign_clear (x : float64) : sign_clear (mul x x).
Proof.
  unfold Float64.mul. destruct x as [s|s| |s m e]; cbn [SFmul].
  - cbn [sign_clear]. apply xorb_nilpotent.
  - cbn [sign_clear]. apply xorb_nilpotent.
  - exact I.
  - rewrite xorb_nilpotent. apply round_aux_sign_clear.
Qed.

Lemma add_sign_clear (x y : float64) :
  sign_clear x -> sign_clear y -> sign_clear (add x y).
Proof.
  unfold Float64.add.
  destruct x as [sx|sx| |sx mx ex], y as [sy|sy| |sy my ey];
    cbn [sign_clear]; intros Hx Hy; subst; cbn [SFadd sign_clear];
    try reflexivity; try exact I.
  cbn [cond_Zopp]. 
  destruct (shl_align mx ex (Z.min ex ey)) as [ma ea].
  destruct (shl_align my ey (Z.min ex ey)) as [mb eb].
  cbn [fst Z.add binary_normalize]. unfold binary_round.
  destruct (shl_align (ma + mb) (Z.min ex ey) _) as [mz ez].
  apply round_aux_sign_clear.
Qed.

Lemma self_loop_sign_clear (v : list float64) (tmp : float64) :
  sign_clear tmp -> sign_clear (fold_left dot_step (combine v v) tmp).
Proof.
  revert tmp. induction v as [|x v IH]; intros tmp H; [exact H|].
  cbn [combine fold_left]. apply IH. unfold Float64.dot_step. cbn [fst snd].
  apply add_sign_clear; [exact H | apply mul_self_sign_clear].
Qed.

Lemma sign_clear_not_negative (x : float64) :
  sign_clear x -> ltb x zero = false.
Proof.
  unfold Float64.ltb, SFltb, Float64.zero.
  destruct x as [s|s| |s m e]; cbn [sign_clear SFcompare]; intros H;
    subst; reflexivity.
Qed.

(** X2.  In binary64 a vector scored against itself is never negative: the
    result is NaN or has its sign bit clear, so [score(v, v) < 0] is false
    for every vector. *)
Theorem score_self_not_negative (v : list float64) :
  exists s : float64,
    Float64.cosine_similarity v v = Ok s /\
    sign_clear s /\
    ltb s zero = false.
Proof.
  exists (Float64.DOUBLE_dot v v).
  split; [apply float64_cosine_similarity_eq_len; reflexivity|].
  assert (H : sign_clear (Float64.DOUBLE_dot v v))
    by (apply self_loop_sign_clear; reflexivity).
  split; [exact H | apply sign_clear_not_negative; exact H].
Qed.

Lemma add_nan_r (x : float64) : add x S754_nan = S754_nan.
Proof. destruct x; reflexivity. Qed.

Lemma dot_loop_nan (l : list (float64 * float64)) :
  fold_left dot_step l S754_nan = S754_nan.
Proof.
  induction l as [|p l IH]; [reflexivity|].
  cbn [fold_left]. exact IH.
Qed.

(** X15.  NaN is absorbing: when at some index the product [a[i] * b[i]] is
    NaN (a NaN component, or an infinity against a zero), the score of two
    vectors of the same length is NaN. *)
Theorem score_nan_product (a b : list float64) (i : nat) :
  length a = length b ->
  (i < length a)%nat ->
  mul (nth i a zero) (nth i b zero) = S754_nan ->
  Float64.cosine_similarity a b = Ok S754_nan.
Proof.
  intros Hlen Hi Hnan.
  rewrite float64_cosine_similarity_eq_len by exact Hlen.
  f_equal. unfold Float64.DOUBLE_dot.
  assert (Hc : (i < length (combine a b))%nat)
    by (rewrite length_combine, <- Hlen, Nat.min_id; exact Hi).
  destruct (nth_split (combine a b) (zero, zero) Hc) as [l1 [l2 [E _]]].
  rewrite E, fold_left_app. cbn [fold_left].
  rewrite combine_nth by exact Hlen.
  unfold Float64.dot_step at 2. cbn [fst snd].
  rewrite Hnan, add_nan_r. apply dot_loop_nan.
Qed.

Lemma score_nan_product_witness :
  Float64.cosine_similarity [of_Z 1 0; S754_nan] [of_Z 1 0; of_Z 1 1]
  = Ok S754_nan.
Proof.
  apply (score_nan_product [of_Z 1 0; S754_nan] [of_Z 1 0; of_Z 1 1] 1).
  - reflexivity.
  - simpl. lia.
  - reflexivity.
Defined.

End Float64ScorerMore.

(** ** The round trip through the data URI *)

Section DataURIRoundTrip.

Variable Image : Type.
Variable png_encode : Image -> result (list byte).

(** The PNG bytes that come back from the data URI are determined by the
    bytes [image.save] wrote. *)
Lemma round_trips_bytes (Pixels : Type) (pixels : Image -> Pixels)
      (png_parse : list byte -> option Image)
      (image : Image) (png : list byte) :
  png_encode image = Ok png ->
  round_trips png_encode png_parse pixels image ->
  exists image', png_parse png = Some image' /\ pixels image' = pixels image.
Proof.
  intros E [uri [payload [png' [image' [Huri [Hstrip [Hdec [Hparse Hpix]]]]]]]].
  rewrite (image_to_base64_ok Image png_encode image png E) in Huri.
  apply Ok_inj in Huri. subst uri.
  rewrite (strip_prefix_app uri_prefix) in Hstrip.
  injection Hstrip as <-.
  rewrite list_byte_of_string_of_list_byte, decode_encode in Hdec.
  injection Hdec as <-.
  exists image'. split; assumption.
Qed.


End DataURIRoundTrip.


